(** * The metrics-instrumented scrape loop of [example.py]

    A shallow embedding of [WebScraper.scrape_page] and [main] together with
    the small part of Python they rely on: exceptions, [try]/[except]/
    [finally], the [with] statement, and the external collaborators
    (prometheus_client, requests, BeautifulSoup, [time], [random]) seen
    through their interfaces.

    Numbers: prometheus metric values are Python floats that only ever move
    by whole steps of one here, so they are integers ([Z]); durations and the
    clock are exact rationals ([Q]) standing for the floats of [time] and
    [random]. *)

From Stdlib Require Import ZArith QArith Lqa List Ascii String Bool Lia.
Import ListNotations.

Open Scope string_scope.
Open Scope list_scope.

(** ** Python exceptions and external replies *)

(** An exception object: whether it is an instance of [Exception] (as opposed
    to a bare [BaseException] such as [KeyboardInterrupt] or [SystemExit]),
    and what [str(e)] gives. *)
Record exn : Type := mk_exn {
  exn_is_Exception : bool;
  exn_str : string
}.

Definition KeyboardInterrupt : exn := mk_exn false "".
Definition ConnectionError (msg : string) : exn := mk_exn true msg.
Definition ValueError (msg : string) : exn := mk_exn true msg.
Definition OSError (msg : string) : exn := mk_exn true msg.

(** A Python call either returns a value or raises. *)
Inductive outcome (A : Type) : Type :=
| Ret (a : A)
| Raise (e : exn).
Arguments Ret {A} a.
Arguments Raise {A} e.

(** What the outside world answers to one external call: how long the call
    blocked, whether it raised, the body text of the response (for a GET) and
    the sample of [random.random()] (for a draw). Each call reads the fields
    it needs. *)
Record reply : Type := mk_reply {
  reply_elapsed : Q;
  reply_raised : option exn;
  reply_text : string;
  reply_random : Q
}.

(** ** Metrics *)

Inductive metric_kind : Type := Counter | Summary | Gauge.

Record metric : Type := mk_metric {
  metric_kind_of : metric_kind;
  metric_name : string;
  metric_help : string
}.

(** Lines 8-11 of the source. *)
Definition SCRAPES_TOTAL : metric :=
  mk_metric Counter "scraper_pages_scraped_total" "Total number of pages scraped".
Definition SCRAPE_ERRORS : metric :=
  mk_metric Counter "scraper_errors_total" "Total number of scraping errors".
Definition SCRAPE_DURATION : metric :=
  mk_metric Summary "scraper_scrape_duration_seconds" "Time spent scraping pages".
Definition ACTIVE_SCRAPERS : metric :=
  mk_metric Gauge "scraper_active_scrapers" "Number of active scrapers".

(** ** Observable actions, in the order the program performs them *)

Inductive event : Type :=
| EInc (name : string)
| EDec (name : string)
| EObserve (name : string) (amount : Q)
| EGet (url : string)
| EParse (text : string)
| ERandom
| ESleep (secs : Q)
| EPrint (text : string)
| EListen (port : Z).

(** ** Process state *)

Record state : Type := mk_state {
  REGISTRY : list metric;            (* the default collector registry *)
  value : string -> Z;               (* counters and gauges, by metric name *)
  observations : string -> list Q;   (* summaries, by metric name, oldest first *)
  clock : Q;                         (* the timer's reading, in seconds *)
  tick : nat;                        (* how many external replies were consumed *)
  trace : list event;                (* actions so far, oldest first *)
  stdout : list string               (* the texts written by [print], oldest first;
                                        each is followed by a newline on the stream *)
}.

Definition initial_state : state :=
  mk_state [] (fun _ => 0%Z) (fun _ => []) 0%Q 0 [] [].

Definition read (m : metric) (s : state) : Z := value s (metric_name m).
Definition samples (m : metric) (s : state) : list Q := observations s (metric_name m).

Definition ScrapeCount : state -> Z := read SCRAPES_TOTAL.
Definition ErrorCount : state -> Z := read SCRAPE_ERRORS.
Definition ActiveScrapers : state -> Z := read ACTIVE_SCRAPERS.
Definition ScrapeDuration : state -> list Q := samples SCRAPE_DURATION.

Definition log (ev : event) (s : state) : state :=
  mk_state (REGISTRY s) (value s) (observations s) (clock s) (tick s)
           (trace s ++ [ev]) (stdout s).

Definition set_value (name : string) (v : Z) (s : state) : state :=
  mk_state (REGISTRY s)
           (fun n => if String.eqb n name then v else value s n)
           (observations s) (clock s) (tick s) (trace s) (stdout s).

Definition add_observation (name : string) (amount : Q) (s : state) : state :=
  mk_state (REGISTRY s) (value s)
           (fun n => if String.eqb n name then observations s n ++ [amount]
                     else observations s n)
           (clock s) (tick s) (trace s) (stdout s).

Definition advance (dt : Q) (s : state) : state :=
  mk_state (REGISTRY s) (value s) (observations s) (clock s + dt)%Q (tick s)
           (trace s) (stdout s).

Definition next_tick (s : state) : state :=
  mk_state (REGISTRY s) (value s) (observations s) (clock s) (S (tick s))
           (trace s) (stdout s).

Definition add_registry (m : metric) (s : state) : state :=
  mk_state (REGISTRY s ++ [m]) (value s) (observations s) (clock s) (tick s)
           (trace s) (stdout s).

Definition write_stdout (line : string) (s : state) : state :=
  mk_state (REGISTRY s) (value s) (observations s) (clock s) (tick s)
           (trace s) (stdout s ++ [line]).

(** ** A state-and-exception monad for Python statements *)

Definition M (A : Type) : Type := state -> outcome A * state.

Definition ret {A : Type} (a : A) : M A := fun s => (Ret a, s).

Definition raise {A : Type} (e : exn) : M A := fun s => (Raise e, s).

Definition bind {A B : Type} (m : M A) (k : A -> M B) : M B :=
  fun s =>
    match m s with
    | (Ret a, s1) => k a s1
    | (Raise e, s1) => (Raise e, s1)
    end.

Declare Scope py_scope.
Delimit Scope py_scope with py.
Notation "x <- c1 ;; c2" := (bind c1 (fun x => c2))
  (at level 100, c1 at next level, right associativity) : py_scope.
Notation "c1 ;; c2" := (bind c1 (fun _ => c2))
  (at level 100, right associativity) : py_scope.
Open Scope py_scope.

(** [try: body except <class> as e: handler]; [catches e] is the
    [isinstance] test of the except clause. *)
Definition try_except {A : Type} (body : M A) (catches : exn -> bool)
    (handler : exn -> M A) : M A :=
  fun s =>
    match body s with
    | (Ret a, s1) => (Ret a, s1)
    | (Raise e, s1) => if catches e then handler e s1 else (Raise e, s1)
    end.

(** [try: body finally: fin]: [fin] runs on every exit of [body], also on a
    [return] and on an exception in flight; an exception of [fin] replaces the
    pending result. *)
Definition try_finally {A : Type} (body : M A) (fin : M unit) : M A :=
  fun s =>
    match body s with
    | (r, s1) =>
        match fin s1 with
        | (Ret _, s2) => (r, s2)
        | (Raise e, s2) => (Raise e, s2)
        end
    end.

(** [with cm: body] for a context manager whose [__exit__] returns a false
    value (it never swallows the exception). *)
Definition with_ {T A : Type} (enter : M T) (exit : T -> M unit) (body : M A) : M A :=
  fun s =>
    match enter s with
    | (Raise e, s1) => (Raise e, s1)
    | (Ret t, s1) =>
        match body s1 with
        | (r, s2) =>
            match exit t s2 with
            | (Ret _, s3) => (r, s3)
            | (Raise e, s3) => (Raise e, s3)
            end
        end
    end.

(** [for x in xs: body x] *)
Fixpoint for_each {A : Type} (xs : list A) (body : A -> M unit) : M unit :=
  match xs with
  | [] => ret tt
  | x :: rest => body x ;; for_each rest body
  end.

(** [while True: body], unrolled [fuel] times. The loop has no exit of its
    own: it ends only by an exception ([Raise]); [Ret tt] after [fuel] rounds
    means the loop is still running. *)
Fixpoint while_true (fuel : nat) (body : M unit) : M unit :=
  match fuel with
  | O => ret tt
  | S n => body ;; while_true n body
  end.

(** [max(x, 0)] as Python computes it: [0] only when [0 > x]. *)
Definition max_0 (x : Q) : Q := if Qle_bool 0 x then x else 0%Q.

(** [random.uniform(a, b)] is [a + (b - a) * random()]. *)
Definition uniform (a b r : Q) : Q := (a + (b - a) * r)%Q.

Section Program.

(** The replies of the outside world, one per external call, in call order. *)
Variable world : nat -> reply.

(** ** The collaborators' operations *)

(** A blocking external call: it is logged, consumes the next reply, takes
    the time the reply says, and raises if the reply says so. *)
Definition external (ev : event) : M reply :=
  fun s =>
    let r := world (tick s) in
    let s1 := advance (reply_elapsed r) (next_tick (log ev s)) in
    match reply_raised r with
    | Some e => (Raise e, s1)
    | None => (Ret r, s1)
    end.

(** [Counter(name, help)], [Summary(...)], [Gauge(...)]: the constructor adds
    the metric to the registry. (The library refuses a metric whose time
    series clash with registered ones; the four metrics of this module do not
    clash, and refusals are not modelled.) *)
Definition register (m : metric) : M unit :=
  fun s => (Ret tt, add_registry m s).

Definition inc (m : metric) : M unit :=
  fun s => (Ret tt, log (EInc (metric_name m))
                        (set_value (metric_name m) (read m s + 1)%Z s)).

Definition dec (m : metric) : M unit :=
  fun s => (Ret tt, log (EDec (metric_name m))
                        (set_value (metric_name m) (read m s - 1)%Z s)).

Definition observe (m : metric) (amount : Q) : M unit :=
  fun s => (Ret tt, log (EObserve (metric_name m) amount)
                        (add_observation (metric_name m) amount s)).

Definition default_timer : M Q := fun s => (Ret (clock s), s).

(** [Summary.time()] gives a timer: [__enter__] reads the clock, [__exit__]
    observes [max(default_timer() - start, 0)]. *)
Definition Timer_enter : M Q := default_timer.

Definition Timer_exit (m : metric) (start : Q) : M unit :=
  now <- default_timer ;;
  observe m (max_0 (now - start)).

Definition time (m : metric) {A : Type} (body : M A) : M A :=
  with_ Timer_enter (Timer_exit m) body.

Definition session_get (url : string) : M string :=
  r <- external (EGet url) ;;
  ret (reply_text r).

Definition BeautifulSoup (text : string) : M unit :=
  external (EParse text) ;;
  ret tt.

Definition random_uniform (a b : Q) : M Q :=
  fun s =>
    (Ret (uniform a b (reply_random (world (tick s)))), next_tick (log ERandom s)).

(** [time.sleep(secs)]: a negative length is a [ValueError]; otherwise the
    thread is held for [secs] plus whatever extra the system adds, unless the
    sleep is interrupted by an exception. *)
Definition time_sleep (secs : Q) : M unit :=
  if Qle_bool 0 secs then
    external (ESleep secs) ;;
    (fun s => (Ret tt, advance secs s))
  else raise (ValueError "sleep length must be non-negative").

(** [print(text)] writes to standard output, which is an external call as
    well: it can raise (an [OSError] on a closed pipe or a full device, a
    [UnicodeEncodeError]), and then nothing is written. *)
Definition print (text : string) : M unit :=
  external (EPrint text) ;;
  (fun s => (Ret tt, write_stdout text s)).

Definition start_http_server (port : Z) : M unit :=
  external (EListen port) ;;
  ret tt.

(** ** [WebScraper.scrape_page] *)

(** Lines 23-26: the body of the [with] block. *)
Definition timed_block (url : string) : M unit :=
  response <- session_get url ;;
  BeautifulSoup response ;;
  delay <- random_uniform (1 # 2) 2 ;;
  time_sleep delay.

(** Lines 20-29: the body of the [try]. *)
Definition attempt (url : string) : M bool :=
  inc ACTIVE_SCRAPERS ;;
  time SCRAPE_DURATION (timed_block url) ;;
  inc SCRAPES_TOTAL ;;
  ret true.

Definition error_line (url : string) (e : exn) : string :=
  "Error scraping " ++ url ++ ": " ++ exn_str e.

(** Lines 31-34: the [except Exception as e] handler. *)
Definition handler (url : string) (e : exn) : M bool :=
  inc SCRAPE_ERRORS ;;
  print (error_line url e) ;;
  ret false.

Definition scrape_page (url : string) : M bool :=
  try_finally
    (try_except (attempt url) exn_is_Exception (handler url))
    (dec ACTIVE_SCRAPERS).

(** ** [main] *)

Definition startup_line : string := "Prometheus metrics server started on port 8000".

Definition urls : list string :=
  ["http://example.com"; "http://example.org"; "http://example.net"].

(** Lines 57-59: one round of the [while True] loop. *)
Definition round (targets : list string) : M unit :=
  for_each targets (fun url => scrape_page url ;; ret tt) ;;
  time_sleep 60.

Definition main_loop (targets : list string) (fuel : nat) : M unit :=
  while_true fuel (round targets).

(** [scraper = WebScraper()] only builds the [requests] session, which has no
    effect on the state modelled here. *)
Definition main (fuel : nat) : M unit :=
  start_http_server 8000 ;;
  print startup_line ;;
  main_loop urls fuel.

(** Lines 8-11, run when the module is loaded. *)
Definition module_init : M unit :=
  register SCRAPES_TOTAL ;;
  register SCRAPE_ERRORS ;;
  register SCRAPE_DURATION ;;
  register ACTIVE_SCRAPERS.

(** The whole script: module initialisation, then [main()]. *)
Definition script (fuel : nat) : M unit :=
  module_init ;;
  main fuel.

End Program.

(** * Verification *)

(** ** Vocabulary of the statements *)

(** The event acts on metric [m]. *)
Definition on_metric (m : metric) (ev : event) : bool :=
  match ev with
  | EInc n | EDec n | EObserve n _ => String.eqb n (metric_name m)
  | _ => false
  end.

(** The URLs fetched, in order. *)
Fixpoint visits (tr : list event) : list string :=
  match tr with
  | [] => []
  | EGet url :: rest => url :: visits rest
  | _ :: rest => visits rest
  end.

(** How many scrape attempts began: each begins by incrementing the gauge. *)
Definition begins_attempt (ev : event) : bool :=
  match ev with
  | EInc n => String.eqb n (metric_name ACTIVE_SCRAPERS)
  | _ => false
  end.

Definition attempts (tr : list event) : nat := List.length (filter begins_attempt tr).




(** The name of the metric an event acts on, if any. *)
Definition metric_of_event (ev : event) : option string :=
  match ev with
  | EInc n | EDec n | EObserve n _ => Some n
  | _ => None
  end.

Definition registered_names : list string :=
  ["scraper_pages_scraped_total"; "scraper_errors_total";
   "scraper_scrape_duration_seconds"; "scraper_active_scrapers"].

Definition uses_registered_name (ev : event) : bool :=
  match metric_of_event ev with
  | Some n => existsb (String.eqb n) registered_names
  | None => true
  end.

(** A simulated delay, when the event is one, lies in [0.5, 2]. *)
Definition delay_in_range (ev : event) : Prop :=
  match ev with
  | ESleep d => (1 # 2 <= d /\ d <= 2)%Q
  | _ => True
  end.

Definition is_sleep (ev : event) : bool :=
  match ev with
  | ESleep _ => true
  | _ => false
  end.

(** Observations recorded minus attempts counted. *)
Definition uncounted_observations (s : state) : Z :=
  (Z.of_nat (List.length (ScrapeDuration s)) - (ScrapeCount s + ErrorCount s))%Z.

(** The event takes one off ScrapeCount or ErrorCount. *)
Definition decrements_counter (ev : event) : bool :=
  match ev with
  | EDec n => String.eqb n (metric_name SCRAPES_TOTAL)
              || String.eqb n (metric_name SCRAPE_ERRORS)
  | _ => false
  end.

Definition allowed_event (ev : event) : bool :=
  uses_registered_name ev && negb (decrements_counter ev).

(** From [s] to [s']: the registry is kept, neither counter went down, and
    the actions in between touch registered metrics only and never decrement
    a counter. *)
Definition well_behaved (s s' : state) : Prop :=
  REGISTRY s' = REGISTRY s /\
  (ScrapeCount s <= ScrapeCount s')%Z /\
  (ErrorCount s <= ErrorCount s')%Z /\
  exists delta, trace s' = trace s ++ delta /\ forallb allowed_event delta = true.




(** A statement keeps a relation between the state before and after it. *)
Definition preserves (R : state -> state -> Prop) {A : Type} (m : M A) : Prop :=
  forall s, R s (snd (m s)).

(** A statement keeps [R] when it returns and [Q] when it raises. *)
Definition keeps (R Q : state -> state -> Prop) {A : Type} (m : M A) : Prop :=
  forall s,
    match fst (m s) with
    | Ret _ => R s (snd (m s))
    | Raise _ => Q s (snd (m s))
    end.

(** The observations that no counter accounts for are as many as before. *)
Definition same_uncounted (s s' : state) : Prop :=
  uncounted_observations s' = uncounted_observations s.

(** At most one observation more went uncounted. *)
Definition one_more_uncounted (s s' : state) : Prop :=
  (uncounted_observations s <= uncounted_observations s'
   <= uncounted_observations s + 1)%Z.

(** What an event does to the ActiveScrapers gauge. *)
Definition gauge_step (ev : event) : Z :=
  match ev with
  | EInc n => if String.eqb n (metric_name ACTIVE_SCRAPERS) then 1%Z else 0%Z
  | EDec n => if String.eqb n (metric_name ACTIVE_SCRAPERS) then (-1)%Z else 0%Z
  | _ => 0%Z
  end.

(** The net movement of the gauge over the events [tr]. *)
Fixpoint level (tr : list event) : Z :=
  match tr with
  | [] => 0%Z
  | ev :: rest => (gauge_step ev + level rest)%Z
  end.

(** Scanning [tr] with the gauge at [lvl]: every GET is issued while the
    gauge reads 1, and after every event the gauge reads 0 or 1. *)
Fixpoint in_flight_ok (lvl : Z) (tr : list event) : bool :=
  match tr with
  | [] => true
  | ev :: rest =>
      match ev with EGet _ => Z.eqb lvl 1 | _ => true end
      && (0 <=? lvl + gauge_step ev)%Z && (lvl + gauge_step ev <=? 1)%Z
      && in_flight_ok (lvl + gauge_step ev) rest
  end.

(** Scanning [tr] with the gauge at [lvl]: the lengths of the sleeps called
    while no attempt is in flight (the gauge reads 0). The simulated delay of
    an attempt is a sleep inside the attempt, so it is not one of them. *)
Fixpoint idle_sleeps (lvl : Z) (tr : list event) : list Q :=
  match tr with
  | [] => []
  | ev :: rest =>
      match ev with
      | ESleep secs => if Z.eqb lvl 0 then [secs] else []
      | _ => []
      end ++ idle_sleeps (lvl + gauge_step ev) rest
  end.

(** From [s] to [s']: the gauge is back where it was, and in between at most
    one attempt was in flight at any time. *)
Definition one_in_flight (s s' : state) : Prop :=
  ActiveScrapers s' = ActiveScrapers s /\
  exists delta,
    trace s' = trace s ++ delta /\ level delta = 0%Z /\ in_flight_ok 0 delta = true.

(** A statement that returns has moved the measure [mu] by exactly [c]. *)
Definition advances_by (mu : state -> Z) (c : Z) {A : Type} (m : M A) : Prop :=
  forall s,
    match fst (m s) with
    | Ret _ => mu (snd (m s)) = (mu s + c)%Z
    | Raise _ => True
    end.

(** Attempts accounted for by one of the two counters. *)
Definition counted (s : state) : Z := (ScrapeCount s + ErrorCount s)%Z.

(** Observations recorded in the duration summary. *)
Definition observed (s : state) : Z := Z.of_nat (List.length (ScrapeDuration s)).

(** The clock did not go back. *)
Definition clock_le (s s' : state) : Prop := (clock s <= clock s')%Q.

Definition is_listen (ev : event) : bool :=
  match ev with
  | EListen _ => true
  | _ => false
  end.

(** From [s] to [s']: no listener was started. *)
Definition never_listens (s s' : state) : Prop :=
  exists delta, trace s' = trace s ++ delta /\ existsb is_listen delta = false.


(** ** Sample worlds *)

Definition ok_reply : reply := mk_reply (1 # 10) None "<html></html>" (1 # 2).

(** Every call succeeds. *)
Definition world_ok : nat -> reply := fun _ => ok_reply.

(** The first call (the GET of the first attempt) fails with a network error. *)
Definition world_refused : nat -> reply :=
  fun n => if Nat.eqb n 0
           then mk_reply (1 # 10) (Some (ConnectionError "Connection refused")) "" 0
           else ok_reply.

(** The fourth call (the simulated delay of the first attempt) is interrupted
    from the keyboard. *)
Definition world_interrupted : nat -> reply :=
  fun n => if Nat.eqb n 3
           then mk_reply (1 # 10) (Some KeyboardInterrupt) "" 0
           else ok_reply.

(** The first call (the GET of the first attempt) is interrupted from the
    keyboard. *)
Definition world_fetch_interrupted : nat -> reply :=
  fun n => if Nat.eqb n 0
           then mk_reply (1 # 10) (Some KeyboardInterrupt) "" 0
           else ok_reply.

(** The GET of the first attempt fails with a network error, and standard
    output is on a full device: the [print] of the error line fails too. *)
Definition world_stdout_full : nat -> reply :=
  fun n => if Nat.eqb n 0
           then mk_reply (1 # 10) (Some (ConnectionError "Connection refused")) "" 0
           else if Nat.eqb n 1
           then mk_reply 0 (Some (OSError "[Errno 28] No space left on device")) "" 0
           else ok_reply.

(** ** Proof automation for straight-line Python *)

Ltac unfold_py :=
  unfold scrape_page, handler, attempt, time, timed_block, session_get, BeautifulSoup,
    random_uniform, time_sleep, start_http_server, print, Timer_exit, Timer_enter,
    default_timer, observe, inc, dec, external, with_, try_finally, try_except,
    bind, ret, raise in *.

Ltac split_py :=
  repeat match goal with
    | |- context [match reply_raised ?r with _ => _ end] =>
        destruct (reply_raised r) eqn:?; cbn
    | |- context [if Qle_bool ?a ?b then _ else _] =>
        destruct (Qle_bool a b) eqn:?; cbn
    | |- context [if exn_is_Exception ?e then _ else _] =>
        destruct (exn_is_Exception e) eqn:?; cbn
    end.

Ltac run_py := unfold_py; cbn; split_py.

Ltac metrics := unfold ActiveScrapers, ScrapeCount, ErrorCount, ScrapeDuration, read, samples; cbn.

(** ** Runs of the model *)

(** One round over a single URL whose fetch succeeds. *)
Example round_all_succeed :
  let s' := snd (round world_ok ["http://example.com"] initial_state) in
  fst (round world_ok ["http://example.com"] initial_state) = Ret tt /\
  ScrapeCount s' = 1%Z /\ ErrorCount s' = 0%Z /\ ActiveScrapers s' = 0%Z /\
  ScrapeDuration s' = [(12400 # 8000)%Q] /\ stdout s' = [].
Proof. vm_compute. repeat split. Qed.

(** One round over a single URL whose fetch raises a network error. *)
Example round_fetch_fails :
  let s' := snd (round world_refused ["http://example.com"] initial_state) in
  fst (round world_refused ["http://example.com"] initial_state) = Ret tt /\
  ScrapeCount s' = 0%Z /\ ErrorCount s' = 1%Z /\ ActiveScrapers s' = 0%Z /\
  List.length (ScrapeDuration s') = 1%nat /\
  stdout s' = ["Error scraping http://example.com: Connection refused"].
Proof. vm_compute. repeat split. Qed.

(** The first attempt of the loop is interrupted during its delay: the
    exception ends the loop, and no further URL is fetched. *)
Example main_loop_interrupted :
  let s' := snd (main_loop world_interrupted urls 5 initial_state) in
  fst (main_loop world_interrupted urls 5 initial_state) = Raise KeyboardInterrupt /\
  visits (trace s') = ["http://example.com"] /\
  ScrapeCount s' = 0%Z /\ ErrorCount s' = 0%Z /\ ActiveScrapers s' = 0%Z /\
  List.length (ScrapeDuration s') = 1%nat /\ stdout s' = [].
Proof. vm_compute. repeat split. Qed.

(** The fetch fails and the error line cannot be written: the error is
    counted, nothing reaches standard output, the gauge is released, and the
    [OSError] of [print] leaves [scrape_page] and ends the loop. *)
Example main_loop_stdout_full :
  let s' := snd (main_loop world_stdout_full urls 5 initial_state) in
  fst (main_loop world_stdout_full urls 5 initial_state)
  = Raise (OSError "[Errno 28] No space left on device") /\
  visits (trace s') = ["http://example.com"] /\
  ScrapeCount s' = 0%Z /\ ErrorCount s' = 1%Z /\ ActiveScrapers s' = 0%Z /\
  List.length (ScrapeDuration s') = 1%nat /\ stdout s' = [].
Proof. vm_compute. repeat split. Qed.

(** ** Strings *)




Lemma error_line_text url e :
  error_line url e = ("Error scraping " ++ url ++ ": " ++ exn_str e)%string.
Proof. reflexivity. Qed.




(** ** One scrape attempt *)

Lemma scrape_page_ActiveScrapers world url s :
  ActiveScrapers (snd (scrape_page world url s)) = ActiveScrapers s.
Proof. run_py; metrics; lia. Qed.

Lemma attempt_ActiveScrapers world url s :
  ActiveScrapers (snd (attempt world url s)) = (ActiveScrapers s + 1)%Z.
Proof. run_py; metrics; lia. Qed.

Lemma scrape_page_trace_gauge world url s :
  exists mid,
    trace (snd (scrape_page world url s)) =
      trace s ++ [EInc (metric_name ACTIVE_SCRAPERS)] ++ mid
              ++ [EDec (metric_name ACTIVE_SCRAPERS)] /\
    filter (on_metric ACTIVE_SCRAPERS) mid = [].
Proof.
  run_py.
  all: repeat rewrite <- app_assoc; cbn.
  all: match goal with |- exists mid, _ ++ ?l = _ /\ _ => exists (removelast (tl l)) end.
  all: split; reflexivity.
Qed.

(** C1: on every exit path of [scrape_page] (normal return, caught exception,
    propagating exception) the ActiveScrapers gauge ends at the value it had
    before the call; it is one higher while the attempt runs; and the call's
    actions are one increment of the gauge first, one decrement of it last,
    and no other action on it in between. *)
Theorem scrape_page_gauge_paired (world : nat -> reply) (url : string) (s : state) :
  let s' := snd (scrape_page world url s) in
  ActiveScrapers s' = ActiveScrapers s /\
  ActiveScrapers (snd (attempt world url s)) = (ActiveScrapers s + 1)%Z /\
  exists mid,
    trace s' = trace s ++ [EInc (metric_name ACTIVE_SCRAPERS)] ++ mid
                       ++ [EDec (metric_name ACTIVE_SCRAPERS)] /\
    filter (on_metric ACTIVE_SCRAPERS) mid = [].
Proof.
  cbv zeta. split; [apply scrape_page_ActiveScrapers|].
  split; [apply attempt_ActiveScrapers|apply scrape_page_trace_gauge].
Qed.

(** How [scrape_page] ends, from how the [try] body ends and, when the
    handler runs, from how its [print] ends. *)
Lemma scrape_page_outcome world url s :
  fst (scrape_page world url s) =
  match attempt world url s with
  | (Ret _, _) => Ret true
  | (Raise e, s1) =>
      if exn_is_Exception e
      then match fst (print world (error_line url e) (snd (inc SCRAPE_ERRORS s1))) with
           | Ret _ => Ret false
           | Raise e' => Raise e'
           end
      else Raise e
  end.
Proof. run_py; reflexivity. Qed.

Lemma scrape_page_ScrapeCount world url s :
  ScrapeCount (snd (scrape_page world url s)) =
  match fst (attempt world url s) with
  | Ret _ => (ScrapeCount s + 1)%Z
  | Raise _ => ScrapeCount s
  end.
Proof. run_py; metrics; lia. Qed.

Lemma scrape_page_ErrorCount world url s :
  ErrorCount (snd (scrape_page world url s)) =
  match fst (attempt world url s) with
  | Ret _ => ErrorCount s
  | Raise e => if exn_is_Exception e then (ErrorCount s + 1)%Z else ErrorCount s
  end.
Proof. run_py; metrics; lia. Qed.

Lemma scrape_page_stdout world url s :
  stdout (snd (scrape_page world url s)) =
  match attempt world url s with
  | (Ret _, _) => stdout s
  | (Raise e, s1) =>
      if exn_is_Exception e
      then match fst (print world (error_line url e) (snd (inc SCRAPE_ERRORS s1))) with
           | Ret _ => stdout s ++ [error_line url e]
           | Raise _ => stdout s
           end
      else stdout s
  end.
Proof. run_py; reflexivity. Qed.


Lemma scrape_page_ScrapeDuration world url s :
  let entry := snd (inc ACTIVE_SCRAPERS s) in
  let leave := snd (timed_block world url entry) in
  ScrapeDuration (snd (scrape_page world url s)) =
  ScrapeDuration s ++ [max_0 (clock leave - clock entry)].
Proof. run_py; metrics; reflexivity. Qed.

Lemma max_0_nonneg (x : Q) : (0 <= x)%Q -> max_0 x = x.
Proof.
  intro H. unfold max_0. destruct (Qle_bool 0 x) eqn:E; [reflexivity|].
  apply Qle_bool_iff in H. congruence.
Qed.

(** With a clock that does not run backwards, the timed block takes a
    non-negative time. *)
Lemma timed_block_clock world url s :
  (forall n, 0 <= reply_elapsed (world n))%Q ->
  (0 <= clock (snd (timed_block world url s)) - clock s)%Q.
Proof.
  intro Hmono.
  pose proof (Hmono (tick s)) as H0.
  pose proof (Hmono (S (tick s))) as H1.
  pose proof (Hmono (S (S (S (tick s))))) as H3.
  run_py.
  all: repeat match goal with
         | H : Qle_bool _ _ = true |- _ => apply Qle_bool_iff in H
         end.
  all: lra.
Qed.

(** ** C2 *)

(** C2 as stated fails: the simulated delay is interrupted from the keyboard,
    so an exception is raised during the attempt, yet ErrorCount does not move
    and neither counter is incremented. *)
Lemma scrape_page_counters_interrupted :
  let s := initial_state in
  let s' := snd (scrape_page world_interrupted "http://example.com" s) in
  fst (attempt world_interrupted "http://example.com" s) = Raise KeyboardInterrupt /\
  ErrorCount s' <> (ErrorCount s + 1)%Z /\
  ErrorCount s' = ErrorCount s /\
  ScrapeCount s' = ScrapeCount s.
Proof. vm_compute. repeat split. discriminate. Qed.

(** C2 (amended): an attempt that completes without exception adds exactly one
    to ScrapeCount and leaves ErrorCount alone; an attempt in which an
    instance of [Exception] is raised adds exactly one to ErrorCount and
    leaves ScrapeCount alone; an attempt ended by an exception that is not an
    instance of [Exception] moves neither counter. *)
Theorem scrape_page_counters (world : nat -> reply) (url : string) (s : state) :
  let s' := snd (scrape_page world url s) in
  match fst (attempt world url s) with
  | Ret _ =>
      ScrapeCount s' = (ScrapeCount s + 1)%Z /\ ErrorCount s' = ErrorCount s
  | Raise e =>
      if exn_is_Exception e
      then ErrorCount s' = (ErrorCount s + 1)%Z /\ ScrapeCount s' = ScrapeCount s
      else ErrorCount s' = ErrorCount s /\ ScrapeCount s' = ScrapeCount s
  end.
Proof.
  cbv zeta. rewrite scrape_page_ScrapeCount, scrape_page_ErrorCount.
  destruct (fst (attempt world url s)) as [b|e]; [easy|].
  destruct (exn_is_Exception e); easy.
Qed.

(** ** C3 *)

(** C3 as stated fails: a [KeyboardInterrupt] arising from the simulated delay
    is not caught, and [scrape_page] raises it to its caller. *)
Lemma scrape_page_raises_interrupt :
  reply_raised (world_interrupted 3) = Some KeyboardInterrupt /\
  fst (scrape_page world_interrupted "http://example.com" initial_state)
  = Raise KeyboardInterrupt /\
  visits (trace (snd (scrape_page world_interrupted "http://example.com" initial_state)))
  = ["http://example.com"].
Proof. vm_compute. repeat split. Qed.

(** C3 (amended): every instance of [Exception] arising from the GET, the
    parse or the simulated delay is caught. [scrape_page] returns [True]
    exactly when the attempt completed without exception, and [False] exactly
    when an instance of [Exception] was raised in the attempt and the
    handler's [print] returned. It raises to its caller in two cases only:
    the attempt was ended by an exception that is not an instance of
    [Exception], which is raised on; or the handler's own [print] raised,
    and then that exception is raised. *)
Theorem scrape_page_result (world : nat -> reply) (url : string) (s : state) :
  fst (scrape_page world url s) =
  match attempt world url s with
  | (Ret _, _) => Ret true
  | (Raise e, s1) =>
      if exn_is_Exception e
      then match fst (print world (error_line url e) (snd (inc SCRAPE_ERRORS s1))) with
           | Ret _ => Ret false
           | Raise e' => Raise e'
           end
      else Raise e
  end /\
  match fst (scrape_page world url s) with
  | Ret true => exists b, fst (attempt world url s) = Ret b
  | Ret false =>
      exists e, fst (attempt world url s) = Raise e /\ exn_is_Exception e = true
  | Raise e' =>
      (fst (attempt world url s) = Raise e' /\ exn_is_Exception e' = false) \/
      (exists e,
         fst (attempt world url s) = Raise e /\ exn_is_Exception e = true /\
         fst (print world (error_line url e)
                (snd (inc SCRAPE_ERRORS (snd (attempt world url s))))) = Raise e')
  end.
Proof.
  split; [apply scrape_page_outcome|].
  rewrite scrape_page_outcome.
  destruct (attempt world url s) as [[b|e] s1]; cbn [fst snd].
  - now exists b.
  - destruct (exn_is_Exception e) eqn:He.
    + destruct (fst (print world (error_line url e) (snd (inc SCRAPE_ERRORS s1))))
        as [[]|e'] eqn:Hp.
      * now exists e.
      * right. now exists e.
    + now left.
Qed.

(** ** C10 *)

(** C10: when the attempt is ended by an exception that is not an instance of
    [Exception], [scrape_page] raises that exception to its caller, neither
    ScrapeCount nor ErrorCount moves, nothing is printed, and the [finally]
    clause has still run: the last action is the decrement of the gauge,
    which is back at its value before the call. *)
Theorem scrape_page_uncaught (world : nat -> reply) (url : string) (s : state) (e : exn) :
  fst (attempt world url s) = Raise e ->
  exn_is_Exception e = false ->
  let s' := snd (scrape_page world url s) in
  fst (scrape_page world url s) = Raise e /\
  ScrapeCount s' = ScrapeCount s /\
  ErrorCount s' = ErrorCount s /\
  stdout s' = stdout s /\
  ActiveScrapers s' = ActiveScrapers s /\
  exists before, trace s' = before ++ [EDec (metric_name ACTIVE_SCRAPERS)].
Proof.
  intros Hraise Hbase. cbv zeta.
  pose proof (scrape_page_outcome world url s) as Hout.
  pose proof (scrape_page_stdout world url s) as Hstd.
  rewrite scrape_page_ScrapeCount, scrape_page_ErrorCount, scrape_page_ActiveScrapers.
  destruct (attempt world url s) as [[b|e'] s1]; cbn [fst] in *; [discriminate|].
  injection Hraise as ->. rewrite Hbase in *.
  repeat (split; [assumption || reflexivity|]).
  destruct (scrape_page_trace_gauge world url s) as (mid & Htrace & _).
  exists (trace s ++ [EInc (metric_name ACTIVE_SCRAPERS)] ++ mid).
  rewrite Htrace. now rewrite <- !app_assoc.
Qed.

Lemma scrape_page_uncaught_witness :
  fst (attempt world_interrupted "http://example.com" initial_state)
  = Raise KeyboardInterrupt /\
  fst (scrape_page world_interrupted "http://example.com" initial_state)
  = Raise KeyboardInterrupt /\
  ActiveScrapers (snd (scrape_page world_interrupted "http://example.com" initial_state))
  = ActiveScrapers initial_state.
Proof.
  assert (H : fst (attempt world_interrupted "http://example.com" initial_state)
              = Raise KeyboardInterrupt) by reflexivity.
  split; [exact H|].
  destruct (scrape_page_uncaught world_interrupted "http://example.com" initial_state
              KeyboardInterrupt H eq_refl) as (T1 & _ & _ & _ & T5 & _).
  split; [exact T1|exact T5].
Defined.

(** ** C9 *)

Lemma uniform_in_range (r : Q) :
  (0 <= r /\ r < 1)%Q ->
  (1 # 2 <= uniform (1 # 2) 2 r /\ uniform (1 # 2) 2 r <= 2)%Q.
Proof. unfold uniform. intros [H0 H1]. split; lra. Qed.

(** The delay is below a threshold exactly when the sample is below the
    threshold brought back to [0, 1): the law of the delay is the law of the
    sample stretched from [0, 1) onto [0.5, 2). *)
Lemma uniform_threshold (r t : Q) :
  ((1 # 2) + (2 - (1 # 2)) * r <= t <-> r <= (t - (1 # 2)) * (2 # 3))%Q.
Proof. split; intro H; lra. Qed.

(** C9: with samples of [random()] in [0, 1), every sleep of a scrape attempt
    has a length in the closed interval [0.5, 2]. When the fetch and the
    parse complete, the attempt goes on with the draw and then sleeps, once,
    for [0.5 + (2 - 0.5) * r], [r] being the sample drawn: the delay lies in
    [0.5, 2], it is at most [t] exactly when the sample is at most
    [(t - 0.5) / 1.5] (so it is uniform on the interval when the sample is
    uniform on [0, 1)), and when the sleep returns the thread was held for
    it: the call has taken the times of the GET, of the parse and of the
    sleep's return plus the delay. When the fetch or the parse raises, there
    is no sleep. *)
Theorem simulated_delay_in_range (world : nat -> reply) (url : string) (s : state) :
  (forall n, 0 <= reply_random (world n) /\ reply_random (world n) < 1)%Q ->
  let s' := snd (scrape_page world url s) in
  exists delta,
    trace s' = trace s ++ delta /\
    Forall delay_in_range delta /\
    match reply_raised (world (tick s)), reply_raised (world (S (tick s))) with
    | None, None =>
        let r := reply_random (world (S (S (tick s)))) in
        let d := ((1 # 2) + (2 - (1 # 2)) * r)%Q in
        (exists rest,
           delta = EInc (metric_name ACTIVE_SCRAPERS) :: EGet url
                   :: EParse (reply_text (world (tick s))) :: ERandom
                   :: ESleep d :: rest /\
           filter is_sleep rest = []) /\
        (1 # 2 <= d /\ d <= 2)%Q /\
        (forall t, d <= t <-> r <= (t - (1 # 2)) * (2 # 3))%Q /\
        (reply_raised (world (S (S (S (tick s))))) = None ->
         clock s' == clock s + reply_elapsed (world (tick s))
                     + reply_elapsed (world (S (tick s)))
                     + reply_elapsed (world (S (S (S (tick s))))) + d)%Q
    | _, _ => filter is_sleep delta = []
    end.
Proof.
  intro Hrand. cbv zeta.
  pose proof (uniform_in_range _ (Hrand (S (S (tick s))))) as [Hlo Hhi].
  assert (Hsleep : Qle_bool 0 (uniform (1 # 2) 2 (reply_random (world (S (S (tick s))))))
                   = true) by (apply Qle_bool_iff; lra).
  run_py.
  all: try congruence.
  all: repeat rewrite <- app_assoc; cbn.
  all: match goal with |- exists delta, _ ++ ?l = _ /\ _ => exists l end.
  all: split; [reflexivity|].
  all: split; [repeat constructor; assumption|].
  all: try reflexivity.
  all: split; [eexists; split; reflexivity|].
  all: split; [split; assumption|].
  all: split; [intro t; apply uniform_threshold|].
  all: intro Hret; try discriminate Hret.
  all: unfold uniform; ring.
Qed.

Lemma simulated_delay_in_range_witness :
  (forall n, 0 <= reply_random (world_ok n) /\ reply_random (world_ok n) < 1)%Q /\
  exists delta,
    trace (snd (scrape_page world_ok "http://example.com" initial_state)) = delta /\
    Forall delay_in_range delta /\
    In (ESleep ((1 # 2) + (2 - (1 # 2)) * (1 # 2))) delta /\
    (clock (snd (scrape_page world_ok "http://example.com" initial_state))
     == (3 # 10) + (5 # 4))%Q.
Proof.
  assert (H : (forall n, 0 <= reply_random (world_ok n) /\ reply_random (world_ok n) < 1)%Q).
  { intro n. split; vm_compute; [discriminate|reflexivity]. }
  split; [exact H|].
  destruct (simulated_delay_in_range world_ok "http://example.com" initial_state H)
    as (delta & Htrace & Hrange & (rest & Hdelta & _) & _ & _ & Hheld).
  exists delta. split; [exact Htrace|]. split; [exact Hrange|]. split.
  - rewrite Hdelta. cbn. do 4 right. left. reflexivity.
  - rewrite (Hheld eq_refl). reflexivity.
Defined.

(** ** Composite statements *)

Section Preservation.

Variable R : state -> state -> Prop.
Hypothesis R_refl : forall s, R s s.
Hypothesis R_trans : forall a b c, R a b -> R b c -> R a c.

Lemma preserves_ret {A : Type} (a : A) : preserves R (ret a).
Proof. intro s. apply R_refl. Qed.

Lemma preserves_bind {A B : Type} (m : M A) (k : A -> M B) :
  preserves R m -> (forall a, preserves R (k a)) -> preserves R (bind m k).
Proof.
  intros Hm Hk s. unfold bind. specialize (Hm s).
  destruct (m s) as [[a|e] s1]; cbn in *; [|exact Hm].
  eapply R_trans; [exact Hm|apply Hk].
Qed.

(** What runs after [m] only moves the state along [R]. *)
Lemma preserves_after {A B : Type} (m : M A) (k : A -> M B) :
  (forall a, preserves R (k a)) -> forall s, R (snd (m s)) (snd (bind m k s)).
Proof.
  intros Hk s. unfold bind.
  destruct (m s) as [[a|e] s1]; cbn; [apply Hk|apply R_refl].
Qed.

Lemma preserves_for_each {A : Type} (xs : list A) (body : A -> M unit) :
  (forall x, In x xs -> preserves R (body x)) -> preserves R (for_each xs body).
Proof.
  induction xs as [|x rest IH]; intro Hbody; cbn [for_each].
  - apply preserves_ret.
  - apply preserves_bind.
    + apply Hbody. now left.
    + intros _. apply IH. intros y Hy. apply Hbody. now right.
Qed.

Lemma preserves_while_true (fuel : nat) (body : M unit) :
  preserves R body -> preserves R (while_true fuel body).
Proof.
  intro Hbody. induction fuel as [|n IH]; cbn [while_true].
  - apply preserves_ret.
  - apply preserves_bind; [exact Hbody|intros _; exact IH].
Qed.

End Preservation.

Lemma bind_assoc {A B C : Type} (m : M A) (f : A -> M B) (g : B -> M C) (s : state) :
  bind (bind m f) g s = bind m (fun a => bind (f a) g) s.
Proof. unfold bind. destruct (m s) as [[a|e] s1]; reflexivity. Qed.

Lemma bind_ext {A B : Type} (m : M A) (f g : A -> M B) (s : state) :
  (forall a s1, f a s1 = g a s1) -> bind m f s = bind m g s.
Proof. intro H. unfold bind. destruct (m s) as [[a|e] s1]; [apply H|reflexivity]. Qed.

(** [fuel + more] rounds are [fuel] rounds followed by [more] rounds. *)
Lemma while_true_add (fuel more : nat) (body : M unit) (s : state) :
  while_true (fuel + more) body s
  = bind (while_true fuel body) (fun _ => while_true more body) s.
Proof.
  revert s. induction fuel as [|n IH]; intro s; cbn [while_true Nat.add].
  - reflexivity.
  - rewrite bind_assoc. apply bind_ext. intros _ s1. apply IH.
Qed.

Section Measure.

Variable mu : state -> Z.

Lemma advances_by_ret {A : Type} (a : A) : advances_by mu 0 (ret a).
Proof. intro s. cbn. lia. Qed.

Lemma advances_by_bind {A B : Type} (c1 c2 : Z) (m : M A) (k : A -> M B) :
  advances_by mu c1 m -> (forall a, advances_by mu c2 (k a)) ->
  advances_by mu (c1 + c2) (bind m k).
Proof.
  intros Hm Hk s. unfold bind. specialize (Hm s).
  destruct (m s) as [[a|e] s1]; cbn in *; [|exact I].
  specialize (Hk a s1). destruct (k a s1) as [[b|e] s2]; cbn in *; [lia|exact I].
Qed.

Lemma advances_by_same {A : Type} (c c' : Z) (m : M A) :
  c = c' -> advances_by mu c m -> advances_by mu c' m.
Proof. now intros ->. Qed.

Lemma advances_by_for_each {A : Type} (c : Z) (xs : list A) (body : A -> M unit) :
  (forall x, advances_by mu c (body x)) ->
  advances_by mu (c * Z.of_nat (List.length xs)) (for_each xs body).
Proof.
  intro Hbody. induction xs as [|x rest IH]; cbn [for_each List.length].
  - apply (advances_by_same 0); [lia|apply advances_by_ret].
  - apply (advances_by_same (c + c * Z.of_nat (List.length rest))); [lia|].
    apply advances_by_bind; [apply Hbody|intros _; exact IH].
Qed.

Lemma advances_by_while_true (c : Z) (fuel : nat) (body : M unit) :
  advances_by mu c body ->
  advances_by mu (c * Z.of_nat fuel) (while_true fuel body).
Proof.
  intro Hbody. induction fuel as [|n IH]; cbn [while_true].
  - apply (advances_by_same 0); [lia|apply advances_by_ret].
  - apply (advances_by_same (c + c * Z.of_nat n)); [lia|].
    apply advances_by_bind; [exact Hbody|intros _; exact IH].
Qed.

End Measure.

Section Keeps.

Variables R Q : state -> state -> Prop.
Hypothesis R_refl : forall s, R s s.
Hypothesis R_trans : forall a b c, R a b -> R b c -> R a c.
Hypothesis R_then_Q : forall a b c, R a b -> Q b c -> Q a c.

Lemma keeps_ret {A : Type} (a : A) : keeps R Q (ret a).
Proof. intro s. apply R_refl. Qed.

Lemma keeps_bind {A B : Type} (m : M A) (k : A -> M B) :
  keeps R Q m -> (forall a, keeps R Q (k a)) -> keeps R Q (bind m k).
Proof.
  intros Hm Hk s. unfold bind. specialize (Hm s).
  destruct (m s) as [[a|e] s1]; cbn in *; [|exact Hm].
  specialize (Hk a s1). destruct (k a s1) as [[b|e] s2]; cbn in *.
  - eapply R_trans; eassumption.
  - eapply R_then_Q; eassumption.
Qed.

Lemma keeps_for_each {A : Type} (xs : list A) (body : A -> M unit) :
  (forall x, keeps R Q (body x)) -> keeps R Q (for_each xs body).
Proof.
  intro Hbody. induction xs as [|x rest IH]; cbn [for_each].
  - apply keeps_ret.
  - apply keeps_bind; [apply Hbody|intros _; exact IH].
Qed.

Lemma keeps_while_true (fuel : nat) (body : M unit) :
  keeps R Q body -> keeps R Q (while_true fuel body).
Proof.
  intro Hbody. induction fuel as [|n IH]; cbn [while_true].
  - apply keeps_ret.
  - apply keeps_bind; [exact Hbody|intros _; exact IH].
Qed.

End Keeps.

(** ** Registry and counters along the whole run *)

Lemma well_behaved_refl s : well_behaved s s.
Proof.
  repeat split; try lia. exists []. now rewrite app_nil_r.
Qed.

Lemma well_behaved_trans a b c : well_behaved a b -> well_behaved b c -> well_behaved a c.
Proof.
  intros (Hr1 & Hs1 & He1 & d1 & Ht1 & Hd1) (Hr2 & Hs2 & He2 & d2 & Ht2 & Hd2).
  repeat split; try lia; [congruence|].
  exists (d1 ++ d2). rewrite Ht2, Ht1, <- app_assoc, forallb_app, Hd1, Hd2. now split.
Qed.

Ltac well_behaved_py :=
  unfold well_behaved; run_py;
  (split; [reflexivity|]);
  (split; [metrics; lia|]);
  (split; [metrics; lia|]);
  repeat rewrite <- app_assoc; cbn;
  try (exists []; rewrite app_nil_r; split; reflexivity);
  match goal with |- exists delta, _ ++ ?l = _ /\ _ => exists l end;
  split; reflexivity.

Lemma well_behaved_scrape_page world url : preserves well_behaved (scrape_page world url).
Proof. intro s. well_behaved_py. Qed.

Lemma well_behaved_time_sleep world secs : preserves well_behaved (time_sleep world secs).
Proof. intro s. unfold time_sleep. destruct (Qle_bool 0 secs); well_behaved_py. Qed.

Lemma well_behaved_start_http_server world port :
  preserves well_behaved (start_http_server world port).
Proof. intro s. well_behaved_py. Qed.

Lemma well_behaved_print world line : preserves well_behaved (print world line).
Proof. intro s. well_behaved_py. Qed.

Lemma well_behaved_round world targets : preserves well_behaved (round world targets).
Proof.
  apply (preserves_bind _ well_behaved_trans).
  - apply (preserves_for_each _ well_behaved_refl well_behaved_trans).
    intros url _. apply (preserves_bind _ well_behaved_trans).
    + apply well_behaved_scrape_page.
    + intros _. apply (preserves_ret _ well_behaved_refl).
  - intros _. apply well_behaved_time_sleep.
Qed.

Lemma well_behaved_main_loop world targets fuel :
  preserves well_behaved (main_loop world targets fuel).
Proof.
  apply (preserves_while_true _ well_behaved_refl well_behaved_trans).
  apply well_behaved_round.
Qed.

Lemma well_behaved_main world fuel : preserves well_behaved (main world fuel).
Proof.
  apply (preserves_bind _ well_behaved_trans).
  - apply well_behaved_start_http_server.
  - intros _. apply (preserves_bind _ well_behaved_trans).
    + apply well_behaved_print.
    + intros _. apply well_behaved_main_loop.
Qed.

(** More rounds of the loop only move the state further along. *)
Lemma main_add world fuel more s :
  main world (fuel + more) s
  = bind (main world fuel) (fun _ => main_loop world urls more) s.
Proof.
  unfold main, main_loop. rewrite !bind_assoc. apply bind_ext. intros _ s1.
  rewrite !bind_assoc. apply bind_ext. intros _ s2. apply while_true_add.
Qed.

Lemma script_add world fuel more s :
  script world (fuel + more) s
  = bind (script world fuel) (fun _ => main_loop world urls more) s.
Proof.
  unfold script. rewrite !bind_assoc. apply bind_ext. intros _ s1. apply main_add.
Qed.

Lemma module_init_run :
  module_init initial_state
  = (Ret tt, add_registry ACTIVE_SCRAPERS
               (add_registry SCRAPE_DURATION
                  (add_registry SCRAPE_ERRORS
                     (add_registry SCRAPES_TOTAL initial_state)))).
Proof. reflexivity. Qed.

Lemma script_run world fuel :
  script world fuel initial_state = main world fuel (snd (module_init initial_state)).
Proof. unfold script, bind. rewrite module_init_run. reflexivity. Qed.

Lemma well_behaved_script world fuel more :
  well_behaved (snd (module_init initial_state))
               (snd (script world fuel initial_state)) /\
  well_behaved (snd (script world fuel initial_state))
               (snd (script world (fuel + more) initial_state)).
Proof.
  split.
  - rewrite script_run. apply well_behaved_main.
  - rewrite script_add.
    apply (preserves_after _ well_behaved_refl).
    intros _. apply well_behaved_main_loop.
Qed.

Lemma allowed_no_decrement (tr : list event) :
  forallb allowed_event tr = true -> existsb decrements_counter tr = false.
Proof.
  induction tr as [|ev rest IH]; cbn; [reflexivity|].
  unfold allowed_event at 1. intro H.
  apply andb_true_iff in H as [H1 H2]. apply andb_true_iff in H1 as [_ H1].
  apply negb_true_iff in H1. now rewrite H1, IH.
Qed.

Lemma allowed_registered (tr : list event) :
  forallb allowed_event tr = true -> forallb uses_registered_name tr = true.
Proof.
  induction tr as [|ev rest IH]; cbn; [reflexivity|].
  unfold allowed_event at 1. intro H.
  apply andb_true_iff in H as [H1 H2]. apply andb_true_iff in H1 as [H1 _].
  now rewrite H1, IH.
Qed.

(** ** C6 *)

(** C6: ScrapeCount and ErrorCount start at 0; at every point of the run (after
    any number of rounds, whether the loop is still running or was ended by
    an exception) both are non-negative integers and neither is below its
    value at an earlier point; no action of the run is a decrement of either
    counter; and a single call of [scrape_page], from any state, lowers
    neither. *)
Theorem counters_monotonic (world : nat -> reply) (fuel more : nat)
    (url : string) (s : state) :
  let now := snd (script world fuel initial_state) in
  let later := snd (script world (fuel + more) initial_state) in
  (ScrapeCount initial_state = 0 /\ ErrorCount initial_state = 0)%Z /\
  (0 <= ScrapeCount now <= ScrapeCount later)%Z /\
  (0 <= ErrorCount now <= ErrorCount later)%Z /\
  existsb decrements_counter (trace later) = false /\
  (ScrapeCount s <= ScrapeCount (snd (scrape_page world url s)))%Z /\
  (ErrorCount s <= ErrorCount (snd (scrape_page world url s)))%Z.
Proof.
  cbv zeta.
  destruct (well_behaved_script world fuel more) as [H0 H1].
  destruct (well_behaved_script world (fuel + more) 0) as [H2 _].
  destruct H0 as (_ & Hs0 & He0 & _), H1 as (_ & Hs1 & He1 & _).
  destruct H2 as (_ & _ & _ & delta & Htrace & Hdelta).
  destruct (well_behaved_scrape_page world url s) as (_ & Hs & He & _).
  rewrite module_init_run in *. cbn [snd] in *.
  change (ScrapeCount (add_registry _ _)) with 0%Z in Hs0.
  change (ErrorCount (add_registry _ _)) with 0%Z in He0.
  split; [split; reflexivity|].
  split; [lia|]. split; [lia|].
  split; [|split; assumption].
  rewrite Htrace. cbn [trace add_registry initial_state app].
  now apply allowed_no_decrement.
Qed.

(** ** C8 *)

(** C8: loading the module registers four metrics, once each, under the names
    scraper_pages_scraped_total (counter), scraper_errors_total (counter),
    scraper_scrape_duration_seconds (summary) and scraper_active_scrapers
    (gauge); the four names differ; the run never changes the registry, and
    every metric action of the run is on one of these four names. *)
Theorem metrics_registered (world : nat -> reply) (fuel : nat) :
  let started := snd (module_init initial_state) in
  let s' := snd (script world fuel initial_state) in
  fst (module_init initial_state) = Ret tt /\
  REGISTRY started = [SCRAPES_TOTAL; SCRAPE_ERRORS; SCRAPE_DURATION; ACTIVE_SCRAPERS] /\
  map (fun m => (metric_name m, metric_kind_of m)) (REGISTRY started)
  = [("scraper_pages_scraped_total", Counter);
     ("scraper_errors_total", Counter);
     ("scraper_scrape_duration_seconds", Summary);
     ("scraper_active_scrapers", Gauge)] /\
  map metric_name (REGISTRY started)
  = ["scraper_pages_scraped_total"; "scraper_errors_total";
     "scraper_scrape_duration_seconds"; "scraper_active_scrapers"] /\
  NoDup (map metric_name (REGISTRY started)) /\
  REGISTRY s' = REGISTRY started /\
  forallb uses_registered_name (trace s') = true.
Proof.
  cbv zeta.
  destruct (well_behaved_script world fuel 0) as [(Hreg & _ & _ & delta & Htrace & Hdelta) _].
  rewrite module_init_run in *. cbn [fst snd] in *.
  do 4 (split; [reflexivity|]).
  split.
  { cbn. repeat (constructor; [cbn; intuition discriminate|]). constructor. }
  split; [exact Hreg|].
  rewrite Htrace. cbn [trace add_registry initial_state app].
  now apply allowed_registered.
Qed.

(** ** Time *)

Section Clock.

Variable world : nat -> reply.

(** No external call takes a negative time. *)
Hypothesis elapsed_nonneg : forall n, (0 <= reply_elapsed (world n))%Q.

Lemma clock_le_refl s : clock_le s s.
Proof. unfold clock_le. lra. Qed.

Lemma clock_le_trans a b c : clock_le a b -> clock_le b c -> clock_le a c.
Proof. unfold clock_le. lra. Qed.

Lemma clock_le_scrape_page url : preserves clock_le (scrape_page world url).
Proof.
  intro s. unfold clock_le.
  pose proof (elapsed_nonneg (tick s)) as H0.
  pose proof (elapsed_nonneg (S (tick s))) as H1.
  pose proof (elapsed_nonneg (S (S (tick s)))) as H2.
  pose proof (elapsed_nonneg (S (S (S (tick s))))) as H3.
  pose proof (elapsed_nonneg (S (S (S (S (tick s)))))) as H4.
  run_py.
  all: repeat match goal with
         | H : Qle_bool _ _ = true |- _ => apply Qle_bool_iff in H
         end.
  all: lra.
Qed.

Lemma time_sleep_returns secs s :
  fst (time_sleep world secs s) = Ret tt ->
  trace (snd (time_sleep world secs s)) = trace s ++ [ESleep secs].
Proof.
  unfold time_sleep. destruct (Qle_bool 0 secs); run_py; intro H;
    try discriminate; reflexivity.
Qed.

(** A sleep that returns has held the thread for at least [secs]: the clock
    moved by [secs] and the extra time of the reply. *)
Lemma time_sleep_holds secs s :
  fst (time_sleep world secs s) = Ret tt ->
  (0 <= secs)%Q /\
  clock (snd (time_sleep world secs s))
  = (clock s + reply_elapsed (world (tick s)) + secs)%Q.
Proof.
  unfold time_sleep. destruct (Qle_bool 0 secs) eqn:Hsecs; run_py; intro H;
    try discriminate.
  split; [now apply Qle_bool_iff|reflexivity].
Qed.

Lemma time_sleep_takes secs s :
  fst (time_sleep world secs s) = Ret tt ->
  (clock s + secs <= clock (snd (time_sleep world secs s)))%Q.
Proof.
  intro H. destruct (time_sleep_holds secs s H) as [_ ->].
  pose proof (elapsed_nonneg (tick s)). lra.
Qed.

Lemma round_takes targets s :
  fst (round world targets s) = Ret tt ->
  (clock s + 60 <= clock (snd (round world targets s)))%Q.
Proof.
  unfold round, bind at 1 3.
  assert (Hfor : preserves clock_le
                   (for_each targets (fun url => scrape_page world url ;; ret tt))).
  { apply (preserves_for_each _ clock_le_refl clock_le_trans). intros url _.
    apply (preserves_bind _ clock_le_trans); [apply clock_le_scrape_page|].
    intros _. apply (preserves_ret _ clock_le_refl). }
  specialize (Hfor s). unfold clock_le in Hfor.
  destruct (for_each targets _ s) as [[[]|e] s1]; cbn [fst snd] in *; [|discriminate].
  intro Hsleep. pose proof (time_sleep_takes 60 s1 Hsleep). lra.
Qed.

Lemma main_loop_takes targets fuel s :
  fst (main_loop world targets fuel s) = Ret tt ->
  (clock s + inject_Z (60 * Z.of_nat fuel)
   <= clock (snd (main_loop world targets fuel s)))%Q.
Proof.
  unfold main_loop. revert s.
  induction fuel as [|n IH]; intros s Hret; cbn [while_true] in *.
  - change (inject_Z (60 * Z.of_nat 0)) with 0%Q. cbn [ret snd]. lra.
  - pose proof (round_takes targets s) as Hround.
    unfold bind in Hret |- *.
    destruct (round world targets s) as [[[]|e] s1]; cbn [fst snd] in *; [|discriminate].
    specialize (Hround eq_refl). specialize (IH s1 Hret).
    replace (60 * Z.of_nat (S n))%Z with (60 + 60 * Z.of_nat n)%Z by lia.
    rewrite inject_Z_plus. change (inject_Z 60) with 60%Q. lra.
Qed.

End Clock.

(** ** The driving loop *)

Lemma visits_app (a b : list event) : visits (a ++ b) = visits a ++ visits b.
Proof.
  induction a as [|ev rest IH]; cbn; [reflexivity|].
  destruct ev; cbn; now rewrite IH.
Qed.

Lemma attempts_app (a b : list event) :
  attempts (a ++ b) = (attempts a + attempts b)%nat.
Proof. unfold attempts. now rewrite filter_app, length_app. Qed.

Lemma level_app (a b : list event) : level (a ++ b) = (level a + level b)%Z.
Proof. induction a as [|ev rest IH]; cbn [level app]; [reflexivity|]. rewrite IH. lia. Qed.

Lemma idle_sleeps_app (lvl : Z) (a b : list event) :
  idle_sleeps lvl (a ++ b) = idle_sleeps lvl a ++ idle_sleeps (lvl + level a) b.
Proof.
  revert lvl. induction a as [|ev rest IH]; intro lvl; cbn [idle_sleeps level app].
  - now rewrite Z.add_0_r.
  - now rewrite IH, Z.add_assoc, app_assoc.
Qed.

(** One call of [scrape_page] is one attempt and fetches its URL once; the
    gauge is back where it was, and it never sleeps outside the attempt. *)
Lemma scrape_page_visit world url s :
  exists delta,
    trace (snd (scrape_page world url s)) = trace s ++ delta /\
    visits delta = [url] /\ attempts delta = 1%nat /\
    level delta = 0%Z /\ idle_sleeps 0 delta = [].
Proof.
  run_py.
  all: repeat rewrite <- app_assoc; cbn.
  all: match goal with |- exists delta, _ ++ ?l = _ /\ _ => exists l end.
  all: repeat split; reflexivity.
Qed.

Lemma for_each_scrape_page world targets s :
  fst (for_each targets (fun url => scrape_page world url ;; ret tt) s) = Ret tt ->
  exists delta,
    trace (snd (for_each targets (fun url => scrape_page world url ;; ret tt) s))
    = trace s ++ delta /\
    visits delta = targets /\ attempts delta = List.length targets /\
    level delta = 0%Z /\ idle_sleeps 0 delta = [].
Proof.
  revert s. induction targets as [|url rest IH]; intros s Hret; cbn [for_each] in *.
  - exists []. cbn. now rewrite app_nil_r.
  - destruct (scrape_page_visit world url s) as (d1 & Ht1 & Hv1 & Ha1 & Hl1 & Hi1).
    unfold bind at 1 2 in Hret. unfold bind at 1 2.
    destruct (scrape_page world url s) as [[b|e] s1]; cbn [fst snd ret] in *;
      [|discriminate].
    destruct (IH s1 Hret) as (d2 & Ht2 & Hv2 & Ha2 & Hl2 & Hi2).
    exists (d1 ++ d2).
    rewrite Ht2, Ht1, <- app_assoc, visits_app, attempts_app, level_app, idle_sleeps_app.
    rewrite Hv1, Hv2, Ha1, Ha2, Hl1, Hl2, Hi1. cbn. rewrite Hi2. repeat split.
Qed.

Lemma round_trace world targets s :
  fst (round world targets s) = Ret tt ->
  exists body,
    trace (snd (round world targets s)) = trace s ++ body ++ [ESleep 60] /\
    visits body = targets /\ attempts body = List.length targets /\
    level body = 0%Z /\ idle_sleeps 0 body = [].
Proof.
  unfold round, bind at 1 3.
  pose proof (for_each_scrape_page world targets s) as Hfor.
  destruct (for_each targets _ s) as [[[]|e] s1]; cbn [fst snd] in *; [|discriminate].
  intro Hsleep. destruct (Hfor eq_refl) as (body & Ht & Hrest).
  exists body. rewrite (time_sleep_returns _ _ _ Hsleep), Ht, <- app_assoc.
  split; [reflexivity|exact Hrest].
Qed.

(** ** C5 *)

(** C5: as long as the loop runs (no exception has ended it), its actions are
    round after round. Each round is N scrape attempts that fetch the N
    target URLs in list order, one attempt per URL whatever the attempts
    returned, with no sleep between the attempts of the round (the only
    sleeps before the round's last action are delays inside an attempt),
    followed by the call [time.sleep(60)]; the next round's attempts come
    only after that call has returned. With a clock that does not run
    backwards, the rounds completed have taken at least 60 seconds each. *)
Theorem main_loop_rounds (world : nat -> reply) (targets : list string)
    (fuel : nat) (s : state) :
  fst (main_loop world targets fuel s) = Ret tt ->
  let s' := snd (main_loop world targets fuel s) in
  (exists bodies,
     List.length bodies = fuel /\
     trace s' = trace s ++ List.concat (map (fun body => body ++ [ESleep 60]) bodies) /\
     Forall (fun body => visits body = targets /\
                         attempts body = List.length targets /\
                         level body = 0%Z /\
                         idle_sleeps 0 body = []) bodies) /\
  ((forall n, 0 <= reply_elapsed (world n))%Q ->
   (clock s + inject_Z (60 * Z.of_nat fuel) <= clock s')%Q).
Proof.
  intros Hret. cbv zeta.
  split; [|intro Hmono; now apply main_loop_takes].
  unfold main_loop in *. revert s Hret.
  induction fuel as [|n IH]; intros s Hret; cbn [while_true] in *.
  - exists []. cbn. rewrite app_nil_r. repeat split. constructor.
  - pose proof (round_trace world targets s) as Hround.
    unfold bind in Hret |- *.
    destruct (round world targets s) as [[[]|e] s1]; cbn [fst snd] in *; [|discriminate].
    destruct (Hround eq_refl) as (body & Ht & Hbody).
    destruct (IH s1 Hret) as (bodies & Hlen & Htr & Hall).
    exists (body :: bodies). cbn [List.length map List.concat].
    rewrite Htr, Ht, <- !app_assoc. repeat split; [now rewrite Hlen|].
    constructor; [exact Hbody|exact Hall].
Qed.

Lemma main_loop_rounds_witness :
  (forall n, 0 <= reply_elapsed (world_refused n))%Q /\
  fst (main_loop world_refused urls 2 initial_state) = Ret tt /\
  fst (scrape_page world_refused "http://example.com" initial_state) = Ret false /\
  visits (trace (snd (main_loop world_refused urls 2 initial_state))) = urls ++ urls /\
  idle_sleeps 0 (trace (snd (main_loop world_refused urls 2 initial_state)))
  = [60%Q; 60%Q] /\
  (120 <= clock (snd (main_loop world_refused urls 2 initial_state)))%Q.
Proof.
  assert (Hmono : (forall n, 0 <= reply_elapsed (world_refused n))%Q).
  { intro n. unfold world_refused. destruct (Nat.eqb n 0); vm_compute; discriminate. }
  assert (H : fst (main_loop world_refused urls 2 initial_state) = Ret tt)
    by (vm_compute; reflexivity).
  split; [exact Hmono|]. split; [exact H|]. split; [vm_compute; reflexivity|].
  destruct (main_loop_rounds world_refused urls 2 initial_state H)
    as [(bodies & Hlen & Htrace & Hall) Hclock].
  specialize (Hclock Hmono).
  rewrite Htrace. cbn [trace initial_state app].
  destruct bodies as [|b1 [|b2 [|b3 rest]]]; try discriminate Hlen.
  inversion Hall as [|? ? (Hv1 & _ & Hl1 & Hi1) Hall']; subst.
  inversion Hall' as [|? ? (Hv2 & _ & Hl2 & Hi2) _]; subst.
  cbn [map List.concat]. rewrite app_nil_r.
  split; [|split].
  - rewrite !visits_app, Hv1, Hv2. cbn. reflexivity.
  - rewrite !idle_sleeps_app, !level_app, Hi1, Hl1, Hl2. cbn. now rewrite Hi2.
  - cbn [clock initial_state] in Hclock.
    change (inject_Z (60 * Z.of_nat 2)) with 120%Q in Hclock. lra.
Defined.

(** ** Standard output *)

Lemma print_run world text s :
  print world text s =
  let s1 := advance (reply_elapsed (world (tick s))) (next_tick (log (EPrint text) s)) in
  match reply_raised (world (tick s)) with
  | Some e => (Raise e, s1)
  | None => (Ret tt, write_stdout text s1)
  end.
Proof. run_py; reflexivity. Qed.

Lemma start_http_server_run world port s :
  start_http_server world port s =
  let s1 := advance (reply_elapsed (world (tick s))) (next_tick (log (EListen port) s)) in
  match reply_raised (world (tick s)) with
  | Some e => (Raise e, s1)
  | None => (Ret tt, s1)
  end.
Proof. run_py; reflexivity. Qed.







(** ** C7 *)



(** ** Observations against counters *)

Lemma same_uncounted_refl s : same_uncounted s s.
Proof. reflexivity. Qed.

Lemma same_uncounted_trans a b c :
  same_uncounted a b -> same_uncounted b c -> same_uncounted a c.
Proof. unfold same_uncounted. congruence. Qed.

Lemma same_uncounted_time_sleep world secs :
  preserves same_uncounted (time_sleep world secs).
Proof.
  intro s. unfold time_sleep. destruct (Qle_bool 0 secs); run_py; reflexivity.
Qed.

Lemma same_uncounted_start_http_server world port :
  preserves same_uncounted (start_http_server world port).
Proof. intro s. run_py; reflexivity. Qed.

Lemma same_uncounted_print world line : preserves same_uncounted (print world line).
Proof. intro s. run_py; reflexivity. Qed.

Lemma same_then_one_more a b c :
  same_uncounted a b -> one_more_uncounted b c -> one_more_uncounted a c.
Proof. unfold same_uncounted, one_more_uncounted. lia. Qed.

(** What one call does to the observations that no counter accounts for. *)
Lemma scrape_page_uncounted world url s :
  uncounted_observations (snd (scrape_page world url s)) =
  match fst (attempt world url s) with
  | Ret _ => uncounted_observations s
  | Raise e =>
      if exn_is_Exception e then uncounted_observations s
      else (uncounted_observations s + 1)%Z
  end.
Proof.
  unfold uncounted_observations.
  rewrite scrape_page_ScrapeDuration, scrape_page_ScrapeCount, scrape_page_ErrorCount.
  cbv zeta. rewrite length_app. cbn [List.length].
  destruct (fst (attempt world url s)) as [b|e]; [lia|].
  destruct (exn_is_Exception e); lia.
Qed.

Lemma uncounted_scrape_page world url :
  keeps same_uncounted one_more_uncounted (scrape_page world url).
Proof.
  intro s. rewrite scrape_page_outcome.
  unfold same_uncounted, one_more_uncounted.
  rewrite scrape_page_uncounted.
  destruct (attempt world url s) as [[b|e] s1]; cbn [fst]; [lia|].
  destruct (exn_is_Exception e); [|lia].
  destruct (fst (print world (error_line url e) (snd (inc SCRAPE_ERRORS s1)))); lia.
Qed.

Lemma uncounted_quiet {A : Type} (m : M A) :
  preserves same_uncounted m -> keeps same_uncounted one_more_uncounted m.
Proof.
  intros Hm s. specialize (Hm s). unfold same_uncounted, one_more_uncounted in *.
  destruct (fst (m s)); lia.
Qed.

Lemma uncounted_main world fuel :
  keeps same_uncounted one_more_uncounted (main world fuel).
Proof.
  pose proof same_uncounted_refl as Hr. pose proof same_uncounted_trans as Ht.
  pose proof same_then_one_more as Hq.
  apply (keeps_bind _ _ Ht Hq).
  { apply uncounted_quiet, same_uncounted_start_http_server. }
  intros _. apply (keeps_bind _ _ Ht Hq).
  { apply uncounted_quiet, same_uncounted_print. }
  intros _. apply (keeps_while_true _ _ Hr Ht Hq).
  apply (keeps_bind _ _ Ht Hq).
  - apply (keeps_for_each _ _ Hr Ht Hq).
    intro url. apply (keeps_bind _ _ Ht Hq).
    + apply uncounted_scrape_page.
    + intros _. apply (keeps_ret _ _ Hr).
  - intros _. apply uncounted_quiet, same_uncounted_time_sleep.
Qed.


(** The time the [with] block takes, call by call. *)
Lemma timed_block_time world url s :
  (forall n, 0 <= reply_random (world n) /\ reply_random (world n) < 1)%Q ->
  (clock (snd (timed_block world url s)) - clock s ==
   match reply_raised (world (tick s)) with
   | Some _ => reply_elapsed (world (tick s))
   | None =>
       match reply_raised (world (S (tick s))) with
       | Some _ => reply_elapsed (world (tick s)) + reply_elapsed (world (S (tick s)))
       | None =>
           match reply_raised (world (S (S (S (tick s))))) with
           | Some _ =>
               reply_elapsed (world (tick s)) + reply_elapsed (world (S (tick s)))
               + reply_elapsed (world (S (S (S (tick s)))))
           | None =>
               reply_elapsed (world (tick s)) + reply_elapsed (world (S (tick s)))
               + reply_elapsed (world (S (S (S (tick s)))))
               + ((1 # 2) + (2 - (1 # 2)) * reply_random (world (S (S (tick s)))))
           end
       end
   end)%Q.
Proof.
  intro Hrand.
  pose proof (uniform_in_range _ (Hrand (S (S (tick s))))) as [Hlo Hhi].
  assert (Hsleep : Qle_bool 0 (uniform (1 # 2) 2 (reply_random (world (S (S (tick s))))))
                   = true) by (apply Qle_bool_iff; lra).
  run_py.
  all: try congruence.
  all: unfold uniform; ring.
Qed.

(** ** C4 *)

(** C4 as stated fails: the GET is interrupted from the keyboard inside the
    timing block; the observation is recorded, but neither counter moves, so
    the observation count (1) no longer equals ScrapeCount plus ErrorCount
    (0), although they were equal before the call. *)
Lemma scrape_page_interrupted_fetch_uncounted :
  let s := initial_state in
  let s' := snd (scrape_page world_fetch_interrupted "http://example.com" s) in
  fst (attempt world_fetch_interrupted "http://example.com" s) = Raise KeyboardInterrupt /\
  Z.of_nat (List.length (ScrapeDuration s)) = (ScrapeCount s + ErrorCount s)%Z /\
  List.length (ScrapeDuration s') = 1%nat /\
  (ScrapeCount s' + ErrorCount s')%Z = 0%Z.
Proof. vm_compute. repeat split. Qed.

(** C4 (amended): every call of [scrape_page] appends exactly one observation
    to ScrapeDuration, on every path, and (with a clock that does not run
    backwards and samples in [0, 1)) it is the time spent inside the [with]
    block: the time of the GET; plus the time of the parse when the GET
    returned; plus, when the parse returned too, the time of the sleep's
    return and, unless the sleep was cut short by an exception, the delay
    drawn. When the attempt completes, or an instance of [Exception] is
    raised in it, the observation count moves together with ScrapeCount plus
    ErrorCount; when the attempt is ended by an exception that is not an
    instance of [Exception], the observation is recorded and neither counter
    moves, so the count gets one ahead. Over the script, the count equals
    ScrapeCount plus ErrorCount while the loop runs and is at most one ahead
    once an exception has ended the run. *)
Theorem scrape_page_observes_duration (world : nat -> reply) (url : string)
    (s : state) (fuel : nat) :
  let s' := snd (scrape_page world url s) in
  (exists d,
     ScrapeDuration s' = ScrapeDuration s ++ [d] /\
     ((forall n, 0 <= reply_elapsed (world n))%Q ->
      (forall n, 0 <= reply_random (world n) /\ reply_random (world n) < 1)%Q ->
      d ==
      match reply_raised (world (tick s)) with
      | Some _ => reply_elapsed (world (tick s))
      | None =>
          match reply_raised (world (S (tick s))) with
          | Some _ => reply_elapsed (world (tick s)) + reply_elapsed (world (S (tick s)))
          | None =>
              match reply_raised (world (S (S (S (tick s))))) with
              | Some _ =>
                  reply_elapsed (world (tick s)) + reply_elapsed (world (S (tick s)))
                  + reply_elapsed (world (S (S (S (tick s)))))
              | None =>
                  reply_elapsed (world (tick s)) + reply_elapsed (world (S (tick s)))
                  + reply_elapsed (world (S (S (S (tick s)))))
                  + ((1 # 2) + (2 - (1 # 2)) * reply_random (world (S (S (tick s)))))
              end
          end
      end)%Q) /\
  match fst (attempt world url s) with
  | Ret _ => uncounted_observations s' = uncounted_observations s
  | Raise e =>
      if exn_is_Exception e
      then uncounted_observations s' = uncounted_observations s
      else uncounted_observations s' = (uncounted_observations s + 1)%Z
  end /\
  match fst (script world fuel initial_state) with
  | Ret _ =>
      Z.of_nat (List.length (ScrapeDuration (snd (script world fuel initial_state))))
      = (ScrapeCount (snd (script world fuel initial_state))
         + ErrorCount (snd (script world fuel initial_state)))%Z
  | Raise _ =>
      (ScrapeCount (snd (script world fuel initial_state))
       + ErrorCount (snd (script world fuel initial_state))
       <= Z.of_nat (List.length (ScrapeDuration (snd (script world fuel initial_state))))
       <= ScrapeCount (snd (script world fuel initial_state))
          + ErrorCount (snd (script world fuel initial_state)) + 1)%Z
  end.
Proof.
  cbv zeta.
  pose proof (scrape_page_ScrapeDuration world url s) as Hobs. cbv zeta in Hobs.
  split; [|split].
  - eexists. split; [exact Hobs|]. intros Hmono Hrand.
    pose proof (timed_block_clock world url (snd (inc ACTIVE_SCRAPERS s)) Hmono) as Hpos.
    rewrite (max_0_nonneg _ Hpos).
    exact (timed_block_time world url (snd (inc ACTIVE_SCRAPERS s)) Hrand).
  - rewrite scrape_page_uncounted.
    destruct (fst (attempt world url s)) as [b|e]; [reflexivity|].
    destruct (exn_is_Exception e); reflexivity.
  - rewrite script_run.
    pose proof (uncounted_main world fuel (snd (module_init initial_state))) as Hmain.
    unfold same_uncounted, one_more_uncounted in Hmain.
    change (uncounted_observations (snd (module_init initial_state))) with 0%Z in Hmain.
    unfold uncounted_observations in Hmain.
    destruct (fst (main world fuel (snd (module_init initial_state)))); lia.
Qed.

Lemma scrape_page_observes_duration_witness :
  (forall n, 0 <= reply_elapsed (world_ok n))%Q /\
  (forall n, 0 <= reply_random (world_ok n) /\ reply_random (world_ok n) < 1)%Q /\
  fst (scrape_page world_ok "http://example.com" initial_state) = Ret true /\
  exists d,
    ScrapeDuration (snd (scrape_page world_ok "http://example.com" initial_state)) = [d] /\
    (d == (1 # 10) + (1 # 10) + (1 # 10) + (5 # 4))%Q.
Proof.
  assert (Hmono : (forall n, 0 <= reply_elapsed (world_ok n))%Q)
    by (intro n; vm_compute; discriminate).
  assert (Hrand : (forall n, 0 <= reply_random (world_ok n)
                             /\ reply_random (world_ok n) < 1)%Q)
    by (intro n; split; vm_compute; [discriminate|reflexivity]).
  split; [exact Hmono|]. split; [exact Hrand|]. split; [vm_compute; reflexivity|].
  destruct (scrape_page_observes_duration world_ok "http://example.com" initial_state 1)
    as ((d & Hd & Hval) & _).
  exists d. split; [exact Hd|]. rewrite (Hval Hmono Hrand). reflexivity.
Defined.

(** ** Observations on every path *)

(** X8: at every stopping point of the script the number of observations in
    ScrapeDuration is ScrapeCount plus ErrorCount or one more. They are equal
    while the loop runs; after an exception has ended the run there can be
    one observation that neither counter accounts for (the attempt that let
    the exception through was timed but not counted). *)
Theorem observations_lead_by_at_most_one (world : nat -> reply) (fuel : nat) :
  let s' := snd (script world fuel initial_state) in
  match fst (script world fuel initial_state) with
  | Ret _ => Z.of_nat (List.length (ScrapeDuration s')) = (ScrapeCount s' + ErrorCount s')%Z
  | Raise _ =>
      (ScrapeCount s' + ErrorCount s' <= Z.of_nat (List.length (ScrapeDuration s'))
       <= ScrapeCount s' + ErrorCount s' + 1)%Z
  end.
Proof.
  cbv zeta. rewrite script_run.
  pose proof (uncounted_main world fuel (snd (module_init initial_state))) as Hmain.
  unfold same_uncounted, one_more_uncounted in Hmain.
  change (uncounted_observations (snd (module_init initial_state))) with 0%Z in Hmain.
  unfold uncounted_observations in Hmain.
  destruct (fst (main world fuel (snd (module_init initial_state)))); lia.
Qed.

(** * Further properties of the scrape loop *)

(** ** At most one attempt in flight *)

Lemma in_flight_ok_app (lvl : Z) (a b : list event) :
  in_flight_ok lvl (a ++ b) = in_flight_ok lvl a && in_flight_ok (lvl + level a) b.
Proof.
  revert lvl. induction a as [|ev rest IH]; intro lvl; cbn [in_flight_ok level app].
  - now rewrite Z.add_0_r.
  - rewrite IH, Z.add_assoc, !andb_assoc. reflexivity.
Qed.

(** What the scan establishes: after any prefix the gauge reads 0 or 1. *)
Lemma in_flight_ok_prefix (lvl : Z) (p q : list event) :
  (0 <= lvl <= 1)%Z -> in_flight_ok lvl (p ++ q) = true ->
  (0 <= lvl + level p <= 1)%Z.
Proof.
  revert lvl. induction p as [|ev rest IH]; intros lvl Hlvl H; cbn [level app] in *.
  - lia.
  - cbn [in_flight_ok] in H. rewrite !andb_true_iff in H.
    destruct H as [[[_ H0] H1] H].
    apply Z.leb_le in H0, H1. rewrite Z.add_assoc. apply IH; [lia|exact H].
Qed.

(** ... and a GET is only issued while it reads 1. *)
Lemma in_flight_ok_get (lvl : Z) (p q : list event) (url : string) :
  in_flight_ok lvl (p ++ EGet url :: q) = true -> (lvl + level p)%Z = 1%Z.
Proof.
  rewrite in_flight_ok_app. cbn [in_flight_ok]. rewrite !andb_true_iff.
  intros [_ [[[H _] _] _]]. now apply Z.eqb_eq.
Qed.

Lemma one_in_flight_refl s : one_in_flight s s.
Proof. split; [reflexivity|]. exists []. now rewrite app_nil_r. Qed.

Lemma one_in_flight_trans a b c :
  one_in_flight a b -> one_in_flight b c -> one_in_flight a c.
Proof.
  intros (Hg1 & d1 & Ht1 & Hl1 & Ho1) (Hg2 & d2 & Ht2 & Hl2 & Ho2).
  split; [congruence|].
  exists (d1 ++ d2). rewrite Ht2, Ht1, <- app_assoc, level_app, in_flight_ok_app.
  rewrite Hl1, Hl2, Ho1. cbn. now rewrite Ho2.
Qed.

Ltac one_in_flight_py :=
  unfold one_in_flight; run_py;
  (split; [metrics; lia|]);
  repeat rewrite <- app_assoc; cbn;
  try (exists []; rewrite app_nil_r; repeat split; reflexivity);
  match goal with |- exists delta, _ ++ ?l = _ /\ _ => exists l end;
  repeat split; reflexivity.

Lemma one_in_flight_scrape_page world url : preserves one_in_flight (scrape_page world url).
Proof. intro s. one_in_flight_py. Qed.

Lemma one_in_flight_time_sleep world secs : preserves one_in_flight (time_sleep world secs).
Proof. intro s. unfold time_sleep. destruct (Qle_bool 0 secs); one_in_flight_py. Qed.

Lemma one_in_flight_start_http_server world port :
  preserves one_in_flight (start_http_server world port).
Proof. intro s. one_in_flight_py. Qed.

Lemma one_in_flight_print world line : preserves one_in_flight (print world line).
Proof. intro s. one_in_flight_py. Qed.

Lemma one_in_flight_main world fuel : preserves one_in_flight (main world fuel).
Proof.
  pose proof one_in_flight_refl as Hr. pose proof one_in_flight_trans as Ht.
  apply (preserves_bind _ Ht); [apply one_in_flight_start_http_server|].
  intros _. apply (preserves_bind _ Ht); [apply one_in_flight_print|].
  intros _. apply (preserves_while_true _ Hr Ht).
  apply (preserves_bind _ Ht).
  - apply (preserves_for_each _ Hr Ht).
    intros url _. apply (preserves_bind _ Ht); [apply one_in_flight_scrape_page|].
    intros _. apply (preserves_ret _ Hr).
  - intros _. apply one_in_flight_time_sleep.
Qed.

(** X1: at every stopping point of the script (after any number of rounds,
    whether the loop is still running or an exception ended it) the
    ActiveScrapers gauge reads 0; and all along the run it read 0 or 1 after
    every action, with every GET issued while it read 1: attempts never
    overlap and none is left counted as in flight. *)
Theorem gauge_zero_or_one (world : nat -> reply) (fuel : nat) :
  let s' := snd (script world fuel initial_state) in
  ActiveScrapers s' = 0%Z /\
  level (trace s') = 0%Z /\
  in_flight_ok 0 (trace s') = true.
Proof.
  cbv zeta. rewrite script_run.
  destruct (one_in_flight_main world fuel (snd (module_init initial_state)))
    as (Hg & delta & Ht & Hl & Ho).
  rewrite Hg, Ht. rewrite module_init_run. cbn [snd trace add_registry initial_state app].
  repeat split; assumption.
Qed.

(** ** Every completed round accounts for every URL *)

Lemma counted_scrape_page world url : advances_by counted 1 (scrape_page world url).
Proof.
  intro s. rewrite scrape_page_outcome. unfold counted.
  rewrite scrape_page_ScrapeCount, scrape_page_ErrorCount.
  destruct (attempt world url s) as [[b|e] s1]; cbn [fst]; [lia|].
  destruct (exn_is_Exception e); [|exact I].
  destruct (fst (print world (error_line url e) (snd (inc SCRAPE_ERRORS s1))));
    [lia|exact I].
Qed.

Lemma observed_scrape_page world url : advances_by observed 1 (scrape_page world url).
Proof.
  intro s. unfold observed. rewrite scrape_page_ScrapeDuration. cbv zeta.
  rewrite length_app. cbn [List.length].
  destruct (fst (scrape_page world url s)); [lia|exact I].
Qed.

Lemma counted_time_sleep world secs : advances_by counted 0 (time_sleep world secs).
Proof.
  intro s. unfold time_sleep. destruct (Qle_bool 0 secs); run_py;
    try exact I; unfold counted; metrics; lia.
Qed.

Lemma observed_time_sleep world secs : advances_by observed 0 (time_sleep world secs).
Proof.
  intro s. unfold time_sleep. destruct (Qle_bool 0 secs); run_py;
    try exact I; unfold observed; metrics; lia.
Qed.

Lemma round_advances mu world targets :
  (forall url, advances_by mu 1 (scrape_page world url)) ->
  (forall secs, advances_by mu 0 (time_sleep world secs)) ->
  advances_by mu (Z.of_nat (List.length targets)) (round world targets).
Proof.
  intros Hpage Hsleep.
  apply (advances_by_same mu (1 * Z.of_nat (List.length targets) + 0)); [lia|].
  apply advances_by_bind; [|intros _; apply Hsleep].
  apply advances_by_for_each. intro url.
  apply (advances_by_same mu (1 + 0)); [lia|].
  apply advances_by_bind; [apply Hpage|intros _; apply advances_by_ret].
Qed.

(** X2: when [fuel] rounds over N target URLs have completed, ScrapeCount plus
    ErrorCount has grown by exactly [fuel * N], and so has the number of
    observations in ScrapeDuration: every URL of every round is accounted
    for once, as a success or as an error, never skipped or retried. *)
Theorem completed_rounds_accounted (world : nat -> reply) (targets : list string)
    (fuel : nat) (s : state) :
  fst (main_loop world targets fuel s) = Ret tt ->
  let s' := snd (main_loop world targets fuel s) in
  (ScrapeCount s' + ErrorCount s'
   = ScrapeCount s + ErrorCount s + Z.of_nat (fuel * List.length targets))%Z /\
  List.length (ScrapeDuration s')
  = (List.length (ScrapeDuration s) + fuel * List.length targets)%nat.
Proof.
  intro Hret. cbv zeta.
  pose proof (advances_by_while_true counted _ fuel _
                (round_advances counted world targets
                   (counted_scrape_page world) (counted_time_sleep world)) s) as Hc.
  pose proof (advances_by_while_true observed _ fuel _
                (round_advances observed world targets
                   (observed_scrape_page world) (observed_time_sleep world)) s) as Ho.
  fold (main_loop world targets fuel) in Hc, Ho.
  rewrite Hret in Hc, Ho. unfold counted in Hc. unfold observed in Ho.
  split; [rewrite Hc; lia|]. lia.
Qed.

Lemma completed_rounds_accounted_witness :
  fst (main_loop world_refused urls 2 initial_state) = Ret tt /\
  (ScrapeCount (snd (main_loop world_refused urls 2 initial_state))
   + ErrorCount (snd (main_loop world_refused urls 2 initial_state)) = 6)%Z /\
  ErrorCount (snd (main_loop world_refused urls 2 initial_state)) = 1%Z.
Proof.
  assert (H : fst (main_loop world_refused urls 2 initial_state) = Ret tt)
    by (vm_compute; reflexivity).
  split; [exact H|].
  destruct (completed_rounds_accounted world_refused urls 2 initial_state H) as [T _].
  split; [exact T|vm_compute; reflexivity].
Defined.

(** ** A minute per round *)

(** X3: with a clock that does not run backwards, [fuel] completed rounds
    take at least [60 * fuel] seconds: the loop starts at most one round,
    hence fetches each target at most once, per minute. *)
Theorem rounds_take_a_minute (world : nat -> reply) (targets : list string)
    (fuel : nat) (s : state) :
  (forall n, 0 <= reply_elapsed (world n))%Q ->
  fst (main_loop world targets fuel s) = Ret tt ->
  (clock s + inject_Z (60 * Z.of_nat fuel)
   <= clock (snd (main_loop world targets fuel s)))%Q.
Proof. intros Hmono Hret. now apply main_loop_takes. Qed.

Lemma rounds_take_a_minute_witness :
  (forall n, 0 <= reply_elapsed (world_ok n))%Q /\
  fst (main_loop world_ok urls 2 initial_state) = Ret tt /\
  (120 <= clock (snd (main_loop world_ok urls 2 initial_state)))%Q.
Proof.
  assert (Hmono : (forall n, 0 <= reply_elapsed (world_ok n))%Q)
    by (intro n; vm_compute; discriminate).
  assert (H : fst (main_loop world_ok urls 2 initial_state) = Ret tt)
    by (vm_compute; reflexivity).
  split; [exact Hmono|]. split; [exact H|].
  pose proof (rounds_take_a_minute world_ok urls 2 initial_state Hmono H) as T.
  cbn [clock initial_state] in T.
  change (inject_Z (60 * Z.of_nat 2)) with 120%Q in T. lra.
Defined.

Lemma timed_block_returns_clock world url s :
  (forall n, 0 <= reply_elapsed (world n))%Q ->
  fst (timed_block world url s) = Ret tt ->
  (uniform (1 # 2) 2 (reply_random (world (S (S (tick s)))))
   <= clock (snd (timed_block world url s)) - clock s)%Q.
Proof.
  intro Hmono.
  pose proof (Hmono (tick s)) as H0.
  pose proof (Hmono (S (tick s))) as H1.
  pose proof (Hmono (S (S (S (tick s))))) as H3.
  run_py; intro H; try discriminate. lra.
Qed.

Lemma scrape_page_true_timed world url s :
  fst (scrape_page world url s) = Ret true ->
  fst (timed_block world url (snd (inc ACTIVE_SCRAPERS s))) = Ret tt.
Proof. run_py; intro H; try discriminate; reflexivity. Qed.

(** X4: with a clock that does not run backwards and samples in [0, 1), a
    successful scrape records a duration that is at least the delay it drew,
    hence at least half a second. *)
Theorem successful_scrape_takes_the_delay (world : nat -> reply) (url : string)
    (s : state) :
  (forall n, 0 <= reply_elapsed (world n))%Q ->
  (forall n, 0 <= reply_random (world n) /\ reply_random (world n) < 1)%Q ->
  fst (scrape_page world url s) = Ret true ->
  exists d,
    ScrapeDuration (snd (scrape_page world url s)) = ScrapeDuration s ++ [d] /\
    (uniform (1 # 2) 2 (reply_random (world (S (S (tick s))))) <= d)%Q /\
    (1 # 2 <= d)%Q.
Proof.
  intros Hmono Hrand Htrue.
  pose proof (timed_block_clock world url (snd (inc ACTIVE_SCRAPERS s)) Hmono) as Hpos.
  pose proof (timed_block_returns_clock world url (snd (inc ACTIVE_SCRAPERS s)) Hmono
                (scrape_page_true_timed world url s Htrue)) as Hdelay.
  pose proof (uniform_in_range _ (Hrand (S (S (tick s))))) as [Hlo _].
  pose proof (scrape_page_ScrapeDuration world url s) as Hobs. cbv zeta in Hobs.
  rewrite (max_0_nonneg _ Hpos) in Hobs.
  eexists. split; [exact Hobs|].
  change (tick (snd (inc ACTIVE_SCRAPERS s))) with (tick s) in Hdelay.
  split; [exact Hdelay|lra].
Qed.

Lemma successful_scrape_takes_the_delay_witness :
  fst (scrape_page world_ok "http://example.com" initial_state) = Ret true /\
  exists d,
    ScrapeDuration (snd (scrape_page world_ok "http://example.com" initial_state)) = [d] /\
    (1 # 2 <= d)%Q.
Proof.
  assert (Hmono : (forall n, 0 <= reply_elapsed (world_ok n))%Q)
    by (intro n; vm_compute; discriminate).
  assert (Hrand : (forall n, 0 <= reply_random (world_ok n)
                             /\ reply_random (world_ok n) < 1)%Q)
    by (intro n; split; vm_compute; [discriminate|reflexivity]).
  assert (H : fst (scrape_page world_ok "http://example.com" initial_state) = Ret true)
    by (vm_compute; reflexivity).
  split; [exact H|].
  destruct (successful_scrape_takes_the_delay world_ok "http://example.com"
              initial_state Hmono Hrand H) as (d & Hd & _ & Hhalf).
  exists d. split; [exact Hd|exact Hhalf].
Defined.

(** ** A failed fetch *)



(** ** How the loop ends *)






(** ** Startup *)

Lemma never_listens_refl s : never_listens s s.
Proof. exists []. now rewrite app_nil_r. Qed.

Lemma never_listens_trans a b c :
  never_listens a b -> never_listens b c -> never_listens a c.
Proof.
  intros (d1 & Ht1 & Hd1) (d2 & Ht2 & Hd2).
  exists (d1 ++ d2). rewrite Ht2, Ht1, <- app_assoc, existsb_app, Hd1, Hd2. now split.
Qed.

Ltac never_listens_py :=
  unfold never_listens; run_py;
  repeat rewrite <- app_assoc; cbn;
  try (exists []; rewrite app_nil_r; split; reflexivity);
  match goal with |- exists delta, _ ++ ?l = _ /\ _ => exists l end;
  split; reflexivity.

Lemma never_listens_scrape_page world url : preserves never_listens (scrape_page world url).
Proof. intro s. never_listens_py. Qed.

Lemma never_listens_time_sleep world secs : preserves never_listens (time_sleep world secs).
Proof. intro s. unfold time_sleep. destruct (Qle_bool 0 secs); never_listens_py. Qed.

Lemma never_listens_main_loop world targets fuel :
  preserves never_listens (main_loop world targets fuel).
Proof.
  pose proof never_listens_refl as Hr. pose proof never_listens_trans as Ht.
  apply (preserves_while_true _ Hr Ht).
  apply (preserves_bind _ Ht).
  - apply (preserves_for_each _ Hr Ht).
    intros url _. apply (preserves_bind _ Ht); [apply never_listens_scrape_page|].
    intros _. apply (preserves_ret _ Hr).
  - intros _. apply never_listens_time_sleep.
Qed.

(** X6: the first action of [main] is to start the metrics listener on port
    8000, and it is started once: nothing after it starts a listener. If
    starting it raises, [main] ends with that exception having done nothing
    else (no line printed, no URL fetched); if it returns, the next action
    is printing the startup line. *)
Theorem main_starts_listener_first (world : nat -> reply) (fuel : nat) (s : state) :
  let s' := snd (main world fuel s) in
  exists rest,
    trace s' = trace s ++ EListen 8000 :: rest /\
    existsb is_listen rest = false /\
    match fst (start_http_server world 8000 s) with
    | Raise e => fst (main world fuel s) = Raise e /\ rest = [] /\ stdout s' = stdout s
    | Ret _ => exists rest', rest = EPrint startup_line :: rest'
    end.
Proof.
  cbv zeta. unfold main, bind. rewrite start_http_server_run. cbv zeta.
  destruct (reply_raised (world (tick s))) as [e|]; cbn [fst snd].
  - exists []. repeat split.
  - rewrite print_run. cbv zeta. cbn [tick advance next_tick log].
    destruct (reply_raised (world (S (tick s)))) as [e|]; cbn [fst snd].
    + exists [EPrint startup_line]. cbn. rewrite <- app_assoc. cbn.
      repeat split. now exists [].
    + match goal with
      | |- context [main_loop world urls fuel ?s1] =>
          destruct (never_listens_main_loop world urls fuel s1) as (delta & Ht & Hd)
      end.
      exists (EPrint startup_line :: delta). rewrite Ht. cbn.
      rewrite <- !app_assoc. cbn. repeat split; [exact Hd|]. now exists delta.
Qed.

